(** * Ride sharing system (main.cpp): model and verified properties

    The program is a single translation unit: an abstract class [Ride] with
    the two concrete classes [StandardRide] and [PremiumRide], the container
    classes [Driver] and [Rider], and the script
    [demonstrateSystemFunctionality] called by [main].

    Modelling choices.
    - [double] is IEEE 754 binary64, modelled by Rocq's primitive floats;
      every arithmetic operation of the source is one correctly rounded
      operation of the model (no fused multiply-add, no extended precision).
    - [std::string] is [string]; [std::vector<std::unique_ptr<Ride>>] is
      [list Ride]: a [unique_ptr] has one owner, so value semantics loses
      nothing.
    - Objects are records passed explicitly; a member function that mutates
      [*this] returns the updated record.
    - What the program does to the outside, in program order, is recorded by
      a writer monad [M] over a list of [Event]s: each insertion into
      [std::cout], each entry into [calculateFare] or [rideDetails], each
      [push_back] on a ride vector. *)

From Stdlib Require Import ZArith NArith List String Ascii Bool Lia.
From Stdlib Require Import DecimalString DecimalPos DecimalNat.
From Stdlib Require Import Floats.
Import ListNotations.

Set Warnings "-inexact-float".

Open Scope string_scope.
Open Scope Z_scope.

(* ================================================================= *)
(** ** Text produced by [operator<<] *)

(** The character of the escape [\n]. *)
Definition newline : string := String (ascii_of_nat 10) EmptyString.

(** [std::endl] inserts a newline (the flush is not observable here). *)
Definition endl : string := newline.

(** Insertion of a [size_t]: its decimal digits. *)
Definition size_text (n : nat) : string :=
  NilEmpty.string_of_uint (Nat.to_uint n).

(** Insertion of a [double] after [std::fixed << std::setprecision(p)].
    The standard defines it as [printf("%.pf")]: the exact binary value is
    rounded to [p] decimals (to nearest, ties to even, the default rounding
    mode), an infinity prints as [inf] and a NaN as [nan] (binary64 is
    modelled with a single NaN, so the sign some C libraries print before
    [nan] is not represented). *)

Definition pow10 (p : nat) : Z := 10 ^ Z.of_nat p.

(** [num / den] rounded to the nearest integer, ties to even ([den > 0]). *)
Definition round_half_even (num den : Z) : Z :=
  let q := num / den in
  let r := num mod den in
  match 2 * r ?= den with
  | Lt => q
  | Gt => q + 1
  | Eq => if Z.even q then q else q + 1
  end.

(** The integer nearest to [m * 2^e * 10^p]. *)
Definition scaled (p : nat) (m : positive) (e : Z) : Z :=
  if 0 <=? e then Zpos m * 2 ^ e * pow10 p
  else round_half_even (Zpos m * pow10 p) (2 ^ (- e)).

Definition digit (z : Z) : ascii := ascii_of_nat (48 + Z.to_nat z)%nat.

(** The [p] low decimal digits of [n], most significant first. *)
Fixpoint frac_digits (p : nat) (n : Z) : string :=
  match p with
  | O => EmptyString
  | S p' => frac_digits p' (n / 10) ++ String (digit (n mod 10)) EmptyString
  end.

Definition int_digits (n : Z) : string :=
  NilEmpty.string_of_uint (N.to_uint (Z.to_N n)).

(** [n / 10^p] written with [p] decimals; no point when [p = 0]. *)
Definition fixed_digits (p : nat) (n : Z) : string :=
  int_digits (n / pow10 p) ++
  match p with
  | O => EmptyString
  | S _ => "." ++ frac_digits p (n mod pow10 p)
  end.

Definition sign_text (s : bool) : string := if s then "-" else "".

Definition format_fixed (p : nat) (x : float) : string :=
  match Prim2SF x with
  | S754_nan => "nan"
  | S754_infinity s => sign_text s ++ "inf"
  | S754_zero s => sign_text s ++ fixed_digits p 0
  | S754_finite s m e => sign_text s ++ fixed_digits p (scaled p m e)
  end.

(** Reading a rendered number back. [has_decimals p s] holds when [s] is an
    optional minus sign, one or more digits, a point, and exactly [p]
    digits. *)
Definition is_digit (c : ascii) : bool :=
  let n := nat_of_ascii c in (48 <=? n)%nat && (n <=? 57)%nat.

Fixpoint all_digits (s : string) : bool :=
  match s with
  | EmptyString => true
  | String c s' => is_digit c && all_digits s'
  end.

(** The text before and the text after the first point. *)
Fixpoint split_point (s : string) : option (string * string) :=
  match s with
  | EmptyString => None
  | String c s' =>
      if Ascii.eqb c "."%char then Some (EmptyString, s')
      else match split_point s' with
           | Some (a, b) => Some (String c a, b)
           | None => None
           end
  end.

Definition unsigned (s : string) : string :=
  match s with
  | EmptyString => EmptyString
  | String c s' => if Ascii.eqb c "-"%char then s' else s
  end.

Definition has_decimals (p : nat) (s : string) : bool :=
  match split_point (unsigned s) with
  | Some (ip, fp) =>
      negb (String.eqb ip "") && all_digits ip && all_digits fp &&
      (String.length fp =? p)%nat
  | None => false
  end.

(* ================================================================= *)
(** ** Events and the writer monad *)

Inductive Method := FcalculateFare | FrideDetails.

(** A ride object: the dynamic type and the five data members of [Ride]. *)
Inductive RideClass := Standard | Premium.

Record Ride := mkRide {
  dynamic_type : RideClass;
  rideID : string;
  pickupLocation : string;
  dropoffLocation : string;
  distance : float;
  fare : float
}.

Inductive Event :=
| Out (text : string)                  (* characters inserted into std::cout *)
| Enter (f : Method) (id : string)     (* entry into a member of ride [id] *)
| PushBack (ride : Ride).              (* push_back on a vector of rides *)

Definition M (A : Type) : Type := (A * list Event)%type.

Definition ret {A} (a : A) : M A := (a, []).

Definition bind {A B} (m : M A) (k : A -> M B) : M B :=
  let (a, t1) := m in
  let (b, t2) := k a in
  (b, (t1 ++ t2)%list).

Notation "x <- m ;; k" := (bind m (fun x => k))
  (at level 61, m at next level, right associativity).
Notation "m ;; k" := (bind m (fun _ => k))
  (at level 61, right associativity).

Definition emit (e : Event) : M unit := (tt, [e]).

(** [std::cout << s] *)
Definition put (s : string) : M unit := emit (Out s).

(** [std::cout << std::fixed << std::setprecision(p) << x] *)
Definition put_fixed (p : nat) (x : float) : M unit :=
  put (format_fixed p x).

(** [v.push_back(std::move(ride))] *)
Definition push_back (v : list Ride) (ride : Ride) : M (list Ride) :=
  emit (PushBack ride) ;; ret (v ++ [ride])%list.

(** The value and the events of a computation. *)
Definition value {A} (m : M A) : A := fst m.
Definition trace {A} (m : M A) : list Event := snd m.

(** The contents of standard output after a trace. *)
Fixpoint stdout (t : list Event) : string :=
  match t with
  | [] => ""
  | Out s :: t' => s ++ stdout t'
  | _ :: t' => stdout t'
  end.

(** The rides entered by member function [f], in order. *)
Fixpoint entered (f : Method) (t : list Event) : list string :=
  match t with
  | [] => []
  | Enter g id :: t' =>
      match f, g with
      | FcalculateFare, FcalculateFare | FrideDetails, FrideDetails =>
          id :: entered f t'
      | _, _ => entered f t'
      end
  | _ :: t' => entered f t'
  end.

(** The rides stored by [push_back], in order. *)
Fixpoint stored (t : list Event) : list Ride :=
  match t with
  | [] => []
  | PushBack r :: t' => r :: stored t'
  | _ :: t' => stored t'
  end.

(** How many times [calculateFare] was entered on ride [id]. *)
Definition fare_calls (id : string) (t : list Event) : nat :=
  List.length (filter (String.eqb id) (entered FcalculateFare t)).

(** Range-based [for] over a vector whose body does not change the element. *)
Fixpoint for_each (body : Ride -> M unit) (v : list Ride) : M unit :=
  match v with
  | [] => ret tt
  | ride :: v' => body ride ;; for_each body v'
  end.

(** Range-based [for] whose body updates the element in place. *)
Fixpoint for_each_mut (body : Ride -> M Ride) (v : list Ride) : M (list Ride) :=
  match v with
  | [] => ret []
  | ride :: v' =>
      ride' <- body ride ;;
      rest <- for_each_mut body v' ;;
      ret (ride' :: rest)
  end.

(* ================================================================= *)
(** ** class Ride and its two subclasses *)

Open Scope float_scope.

Definition set_fare (r : Ride) (f : float) : Ride :=
  mkRide (dynamic_type r) (rideID r) (pickupLocation r) (dropoffLocation r)
         (distance r) f.

(** The base constructor: the members are initialised, [fare(0.0)]. *)
Definition Ride_ctor (c : RideClass) (id pickup dropoff : string)
    (dist : float) : Ride :=
  mkRide c id pickup dropoff dist 0.0.

Definition rideDetails (r : Ride) : M unit :=
  emit (Enter FrideDetails (rideID r)) ;;
  put "Ride ID: " ;; put (rideID r) ;; put endl ;;
  put "  Pickup: " ;; put (pickupLocation r) ;; put endl ;;
  put "  Dropoff: " ;; put (dropoffLocation r) ;; put endl ;;
  put "  Distance: " ;; put_fixed 1 (distance r) ;; put " miles" ;; put endl ;;
  put "  Fare: $" ;; put_fixed 2 (fare r) ;; put endl.

Definition getFare (r : Ride) : float := fare r.

Definition getRideID (r : Ride) : string := rideID r.

Module StandardRide.
Definition RATE_PER_MILE : float := 2.0.

Definition calculateFare (r : Ride) : M Ride :=
  emit (Enter FcalculateFare (rideID r)) ;;
  ret (set_fare r (distance r * RATE_PER_MILE)).
End StandardRide.

Module PremiumRide.
Definition RATE_PER_MILE : float := 3.5.
Definition PREMIUM_SURCHARGE : float := 5.0.

Definition calculateFare (r : Ride) : M Ride :=
  emit (Enter FcalculateFare (rideID r)) ;;
  ret (set_fare r ((distance r * RATE_PER_MILE) + PREMIUM_SURCHARGE)).
End PremiumRide.

(** The virtual call [ride->calculateFare()]. *)
Definition calculateFare (r : Ride) : M Ride :=
  match dynamic_type r with
  | Standard => StandardRide.calculateFare r
  | Premium => PremiumRide.calculateFare r
  end.

(** The constructors: the base constructor, then [calculateFare()], which
    inside a constructor is the class's own override. *)
Definition StandardRide (id pickup dropoff : string) (dist : float) : M Ride :=
  StandardRide.calculateFare (Ride_ctor Standard id pickup dropoff dist).

Definition PremiumRide (id pickup dropoff : string) (dist : float) : M Ride :=
  PremiumRide.calculateFare (Ride_ctor Premium id pickup dropoff dist).

Close Scope float_scope.

(* ================================================================= *)
(** ** class Driver *)

Module Driver.

Record t := mk {
  driverID : string;
  name : string;
  rating : float;
  assignedRides : list Ride
}.

(** [Driver(id, n, r)]: the vector starts empty. *)
Definition ctor (id n : string) (r : float) : t := mk id n r [].

Definition addRide (d : t) (ride : Ride) : M t :=
  v <- push_back (assignedRides d) ride ;;
  ret (mk (driverID d) (name d) (rating d) v).

Definition getDriverInfo (d : t) : M unit :=
  put (newline ++ "--- Driver Details ---") ;; put endl ;;
  put "Driver ID: " ;; put (driverID d) ;; put endl ;;
  put "Name: " ;; put (name d) ;; put endl ;;
  put "Rating: " ;; put_fixed 1 (rating d) ;; put "/5.0" ;; put endl ;;
  put "Completed Rides (" ;;
  put (size_text (List.length (assignedRides d))) ;; put "):" ;; put endl ;;
  match assignedRides d with
  | [] => put "  No rides completed yet." ;; put endl
  | _ :: _ =>
      for_each
        (fun ride => rideDetails ride ;; put "--------------------" ;; put endl)
        (assignedRides d)
  end.

End Driver.

(* ================================================================= *)
(** ** class Rider *)

Module Rider.

Record t := mk {
  riderID : string;
  name : string;
  requestedRides : list Ride
}.

Definition ctor (id n : string) : t := mk id n [].

Definition requestRide (rd : t) (ride : Ride) : M t :=
  put newline ;; put (name rd) ;; put " requested a ride." ;; put endl ;;
  rideDetails ride ;;
  v <- push_back (requestedRides rd) ride ;;
  ret (mk (riderID rd) (name rd) v).

Definition viewRides (rd : t) : M unit :=
  put (newline ++ "--- ") ;; put (name rd) ;; put "'s Ride History ---" ;;
  put endl ;;
  match requestedRides rd with
  | [] => put "  No rides requested yet." ;; put endl
  | _ :: _ =>
      for_each
        (fun ride => rideDetails ride ;; put "--------------------" ;; put endl)
        (requestedRides rd)
  end.

End Rider.

(* ================================================================= *)
(** ** The demonstration script *)

Open Scope float_scope.

(** The final loop: [calculateFare], [rideDetails] and a separator for each
    element of [systemRides]. *)
Definition polymorphism_loop (systemRides : list Ride) : M (list Ride) :=
  for_each_mut
    (fun ride =>
       ride' <- calculateFare ride ;;
       rideDetails ride' ;;
       put "--------------------" ;; put endl ;;
       ret ride')
    systemRides.

Definition demonstrateSystemFunctionality : M unit :=
  put "--- C++ Ride Sharing System Demonstration ---" ;; put endl ;;
  let sandesh := Rider.ctor "R001" "Sandesh Shrestha" in
  ride1 <- StandardRide "S001" "Downtown" "Suburb A" 10.5 ;;
  ride2 <- PremiumRide "P002" "Airport" "City Center" 25.0 ;;
  ride3 <- StandardRide "S003" "Park" "Museum" 3.2 ;;
  sandesh <- Rider.requestRide sandesh ride1 ;;
  sandesh <- Rider.requestRide sandesh ride2 ;;
  sandesh <- Rider.requestRide sandesh ride3 ;;
  let alice := Driver.ctor "D001" "Alice Smith" 4.8 in
  completedRide1_driver <- StandardRide "S001-C" "Downtown" "Suburb A" 10.5 ;;
  completedRide2_driver <- PremiumRide "P002-C" "Airport" "City Center" 25.0 ;;
  completedRide3_driver <- StandardRide "S003-C" "Park" "Museum" 3.2 ;;
  alice <- Driver.addRide alice completedRide1_driver ;;
  alice <- Driver.addRide alice completedRide2_driver ;;
  alice <- Driver.addRide alice completedRide3_driver ;;
  Driver.getDriverInfo alice ;;
  Rider.viewRides sandesh ;;
  put (newline ++
       "--- Polymorphism Demonstration (List of All Rides in System) ---") ;;
  put endl ;;
  let systemRides : list Ride := [] in
  r <- StandardRide "SysR01" "Library" "Cafe" 7.0 ;;
  systemRides <- push_back systemRides r ;;
  r <- PremiumRide "SysR02" "Mall" "Home" 4.5 ;;
  systemRides <- push_back systemRides r ;;
  r <- StandardRide "SysR03" "Gym" "Cafe" 2.0 ;;
  systemRides <- push_back systemRides r ;;
  r <- PremiumRide "SysR04" "School" "Park" 12.0 ;;
  systemRides <- push_back systemRides r ;;
  _ <- polymorphism_loop systemRides ;;
  put (newline ++ "--- Demonstration Complete ---") ;; put endl.

(** [main] runs the script and returns 0. *)
Definition main : M Z := demonstrateSystemFunctionality ;; ret 0%Z.

Close Scope float_scope.

(* ================================================================= *)
(** ** Definitions used to state the properties *)

(** [d.addRide(r1); ...; d.addRide(rN);] *)
Fixpoint addRides (d : Driver.t) (rides : list Ride) : M Driver.t :=
  match rides with
  | [] => ret d
  | ride :: rest => d' <- Driver.addRide d ride ;; addRides d' rest
  end.

(** [rd.requestRide(r1); ...; rd.requestRide(rN);] *)
Fixpoint requestRides (rd : Rider.t) (rides : list Ride) : M Rider.t :=
  match rides with
  | [] => ret rd
  | ride :: rest => rd' <- Rider.requestRide rd ride ;; requestRides rd' rest
  end.

(** The body shared by the display loops of [getDriverInfo] and
    [viewRides]. *)
Definition display_body (ride : Ride) : M unit :=
  rideDetails ride ;; put "--------------------" ;; put endl.

(** The text of one iteration of the display loops. *)
Definition details_block (r : Ride) : string :=
  stdout (trace (rideDetails r)) ++ "--------------------" ++ endl.

(** Concatenation of a list of texts. *)
Definition join (l : list string) : string := fold_right String.append "" l.

(** The two numbers [rideDetails] prints. *)
Definition distance_text (r : Ride) : string := format_fixed 1 (distance r).
Definition fare_text (r : Ride) : string := format_fixed 2 (fare r).

(** The reading of C8 on one ride: the distance is printed with exactly one
    fractional digit and the fare with exactly two. *)
Definition rendered_precisely (r : Ride) : Prop :=
  has_decimals 1%nat (distance_text r) = true /\
  has_decimals 2%nat (fare_text r) = true.

(** A ride as one of the two constructors leaves it. *)
Definition constructed (r : Ride) : Prop :=
  exists id pickup dropoff d,
    r = value (StandardRide id pickup dropoff d) \/
    r = value (PremiumRide id pickup dropoff d).

(** Is the event a [push_back]? *)
Definition is_push (e : Event) : bool :=
  match e with PushBack _ => true | _ => false end.

(** The reading of C3 on a trace: every ride on which [calculateFare] is
    entered at all has it entered exactly once. *)
Definition fare_computed_once (t : list Event) : Prop :=
  forall id, In id (entered FcalculateFare t) -> fare_calls id t = 1%nat.

(** Lines of text, each ended by a newline. *)
Definition lines (l : list string) : string :=
  join (map (fun s => s ++ endl) l).

(** What [getDriverInfo] prints before the rides. *)
Definition driver_header (d : Driver.t) : string :=
  newline ++ "--- Driver Details ---" ++ endl ++
  "Driver ID: " ++ Driver.driverID d ++ endl ++
  "Name: " ++ Driver.name d ++ endl ++
  "Rating: " ++ format_fixed 1 (Driver.rating d) ++ "/5.0" ++ endl ++
  "Completed Rides (" ++
  size_text (List.length (Driver.assignedRides d)) ++ "):" ++ endl.

(** What [viewRides] prints before the rides. *)
Definition rider_header (rd : Rider.t) : string :=
  newline ++ "--- " ++ Rider.name rd ++ "'s Ride History ---" ++ endl.

(** The fare each class derives from a distance. *)
Definition fare_formula (c : RideClass) (d : float) : float :=
  match c with
  | Standard => (d * 2.0)%float
  | Premium => (d * 3.5 + 5.0)%float
  end.

(** The stored fare is the one the ride's class derives from its distance. *)
Definition fare_consistent (r : Ride) : Prop :=
  fare r = fare_formula (dynamic_type r) (distance r).

(** What one [requestRide] prints for a rider of the given name. *)
Definition request_text (rider_name : string) (r : Ride) : string :=
  newline ++ rider_name ++ " requested a ride." ++ endl ++
  stdout (trace (rideDetails r)).

(** Reading a printed count back: one or more decimal digits. *)
Definition parse_count (s : string) : option nat :=
  match s with
  | EmptyString => None
  | String _ _ =>
      match NilEmpty.uint_of_string s with
      | Some u => Some (Nat.of_uint u)
      | None => None
      end
  end.

(** Does the trace compute the fare of a ride before it prints or stores
    the ride?  [ready] lists the rides whose fare has been computed. *)
Fixpoint fares_ready (ready : list string) (t : list Event) : bool :=
  match t with
  | [] => true
  | Out _ :: t' => fares_ready ready t'
  | Enter FcalculateFare id :: t' => fares_ready (id :: ready) t'
  | Enter FrideDetails id :: t' =>
      existsb (String.eqb id) ready && fares_ready ready t'
  | PushBack r :: t' =>
      existsb (String.eqb (rideID r)) ready && fares_ready ready t'
  end.

(** Are the texts pairwise different? *)
Fixpoint distinct (l : list string) : bool :=
  match l with
  | [] => true
  | x :: l' => negb (existsb (String.eqb x) l') && distinct l'
  end.

(* ================================================================= *)
(** ** Basic facts about the monad and the projections of a trace *)

Section MonadFacts.
Context {A B : Type}.
Variables (m : M A) (k : A -> M B).

Lemma value_bind : value (bind m k) = value (k (value m)).
Proof.
  unfold value, bind. destruct m as [a t1]. simpl.
  destruct (k a). reflexivity.
Qed.

Lemma trace_bind : trace (bind m k) = (trace m ++ trace (k (value m)))%list.
Proof.
  unfold value, trace, bind. destruct m as [a t1]. simpl.
  destruct (k a). reflexivity.
Qed.
End MonadFacts.

Lemma bind_ret_l {A B} (a : A) (k : A -> M B) : bind (ret a) k = k a.
Proof. unfold bind, ret. destruct (k a). reflexivity. Qed.

Lemma bind_ret_r {A} (m : M A) : bind m ret = m.
Proof. destruct m as [a t]. unfold bind, ret. now rewrite app_nil_r. Qed.

Lemma bind_assoc {A B C} (m : M A) (k : A -> M B) (h : B -> M C) :
  bind (bind m k) h = bind m (fun a => bind (k a) h).
Proof.
  destruct m as [a t1]. unfold bind.
  destruct (k a) as [b t2]. destruct (h b) as [c t3].
  now rewrite app_assoc.
Qed.

(* ================================================================= *)
(** ** The fixed notation on sample values *)

Example format_fixed_exact : format_fixed 2 21%float = "21.00".
Proof. vm_compute. reflexivity. Qed.

Example format_fixed_tie_to_even :
  format_fixed 1 0.25%float = "0.2" /\ format_fixed 1 0.75%float = "0.8" /\
  format_fixed 0 2.5%float = "2".
Proof. vm_compute. repeat split. Qed.

Example format_fixed_inexact_literal :
  format_fixed 1 3.2%float = "3.2" /\ format_fixed 2 (3.2 * 2)%float = "6.40" /\
  format_fixed 1 0.35%float = "0.3".
Proof. vm_compute. repeat split. Qed.

Example format_fixed_signed :
  format_fixed 2 (-0.005)%float = "-0.01" /\
  format_fixed 3 (-0)%float = "-0.000".
Proof. vm_compute. repeat split. Qed.

Example format_fixed_not_finite :
  format_fixed 2 infinity = "inf" /\ format_fixed 2 neg_infinity = "-inf" /\
  format_fixed 2 nan = "nan".
Proof. vm_compute. repeat split. Qed.

Lemma string_app_assoc (s1 s2 s3 : string) :
  (s1 ++ s2) ++ s3 = s1 ++ (s2 ++ s3).
Proof.
  induction s1 as [|c s1 IH]; simpl; [reflexivity | now rewrite IH].
Qed.

Lemma string_app_nil_r (s : string) : s ++ "" = s.
Proof.
  induction s as [|c s IH]; simpl; [reflexivity | now rewrite IH].
Qed.

Lemma stdout_app (t1 t2 : list Event) :
  stdout (t1 ++ t2) = stdout t1 ++ stdout t2.
Proof.
  induction t1 as [|e t1 IH]; simpl; [reflexivity|].
  destruct e; simpl; rewrite IH; try reflexivity.
  now rewrite string_app_assoc.
Qed.

Lemma entered_app (f : Method) (t1 t2 : list Event) :
  entered f (t1 ++ t2) = (entered f t1 ++ entered f t2)%list.
Proof.
  induction t1 as [|e t1 IH]; simpl; [reflexivity|].
  destruct e as [s|g id|r]; simpl; try apply IH.
  destruct f, g; simpl; rewrite IH; reflexivity.
Qed.

Lemma stored_app (t1 t2 : list Event) :
  stored (t1 ++ t2) = (stored t1 ++ stored t2)%list.
Proof.
  induction t1 as [|e t1 IH]; simpl; [reflexivity|].
  destruct e; simpl; rewrite IH; reflexivity.
Qed.

(* ================================================================= *)
(** ** binary64 multiplication commutes *)

Lemma SFmul_comm (prec emax : Z) (x y : spec_float) :
  SFmul prec emax x y = SFmul prec emax y x.
Proof.
  destruct x as [sx|sx| |sx mx ex], y as [sy|sy| |sy my ey]; simpl;
    try reflexivity; try (now rewrite xorb_comm).
  now rewrite xorb_comm, Pos.mul_comm, Z.add_comm.
Qed.

Lemma float_mul_comm (x y : float) : (x * y)%float = (y * x)%float.
Proof.
  apply Prim2SF_inj. rewrite !mul_spec. apply SFmul_comm.
Qed.

(* ================================================================= *)
(** ** Fares *)

(** C1. For every id, pickup, dropoff and distance [d], the object built by
    [StandardRide(id, pickup, dropoff, d)] stores the fare 2.0 x d (the
    source multiplies in the order d x 2.0, which is the same binary64
    value), [getFare] returns it, and the four inputs are stored as given. *)
Theorem StandardRide_fare (id pickup dropoff : string) (d : float) :
  let r := value (StandardRide id pickup dropoff d) in
  fare r = (2.0 * d)%float /\
  fare r = (d * 2.0)%float /\
  getFare r = (2.0 * d)%float /\
  dynamic_type r = Standard /\
  rideID r = id /\ pickupLocation r = pickup /\ dropoffLocation r = dropoff /\
  distance r = d.
Proof.
  cbv zeta. unfold getFare. simpl.
  unfold StandardRide.RATE_PER_MILE.
  rewrite (float_mul_comm d 2.0). repeat split.
Qed.

(** C2. For every id, pickup, dropoff and distance [d], the object built by
    [PremiumRide(id, pickup, dropoff, d)] stores the fare 3.5 x d + 5.0,
    [getFare] returns it, and the four inputs are stored as given. *)
Theorem PremiumRide_fare (id pickup dropoff : string) (d : float) :
  let r := value (PremiumRide id pickup dropoff d) in
  fare r = (3.5 * d + 5.0)%float /\
  fare r = (d * 3.5 + 5.0)%float /\
  getFare r = (3.5 * d + 5.0)%float /\
  dynamic_type r = Premium /\
  rideID r = id /\ pickupLocation r = pickup /\ dropoffLocation r = dropoff /\
  distance r = d.
Proof.
  cbv zeta. unfold getFare. simpl.
  unfold PremiumRide.RATE_PER_MILE, PremiumRide.PREMIUM_SURCHARGE.
  rewrite (float_mul_comm d 3.5). repeat split.
Qed.

(* ================================================================= *)
(** ** calculateFare: frame and idempotence *)

Lemma calculateFare_value (r : Ride) :
  value (calculateFare r) =
  set_fare r (match dynamic_type r with
              | Standard => distance r * 2.0
              | Premium => distance r * 3.5 + 5.0
              end)%float.
Proof.
  unfold calculateFare. destruct (dynamic_type r); reflexivity.
Qed.

Lemma calculateFare_trace (r : Ride) :
  trace (calculateFare r) = [Enter FcalculateFare (rideID r)].
Proof.
  unfold calculateFare. destruct (dynamic_type r); reflexivity.
Qed.

Lemma calculateFare_constructed (r : Ride) :
  constructed r -> value (calculateFare r) = r.
Proof.
  intros (id & pickup & dropoff & d & [-> | ->]); reflexivity.
Qed.

(** C9. For every Ride, [calculateFare] changes only the fare member: the
    dynamic type, id, pickup, dropoff and distance are as before; it writes
    nothing to standard output and stores nothing; its only event is its
    own entry. *)
Theorem calculateFare_frame (r : Ride) :
  let r' := value (calculateFare r) in
  dynamic_type r' = dynamic_type r /\
  rideID r' = rideID r /\
  pickupLocation r' = pickupLocation r /\
  dropoffLocation r' = dropoffLocation r /\
  distance r' = distance r /\
  r' = set_fare r (fare r') /\
  trace (calculateFare r) = [Enter FcalculateFare (rideID r)] /\
  stdout (trace (calculateFare r)) = "" /\
  stored (trace (calculateFare r)) = [].
Proof.
  cbv zeta. rewrite calculateFare_trace, calculateFare_value.
  repeat split.
Qed.

Lemma polymorphism_loop_value (v : list Ride) :
  value (polymorphism_loop v) = map (fun r => value (calculateFare r)) v.
Proof.
  unfold polymorphism_loop.
  induction v as [|r v IH]; [reflexivity|].
  cbn [for_each_mut map].
  rewrite !value_bind. cbn [ret value fst]. now rewrite IH.
Qed.

(** C10. [calculateFare] is idempotent: on an object built by either
    constructor a further call returns the very same object; in general a
    second call changes nothing the first has not; hence the final loop of
    the demonstration leaves every element of a vector of constructed rides
    as it was, and every ride stored during the demonstration is such a
    fixed point. *)
Theorem calculateFare_idempotent :
  (forall id pickup dropoff d,
     let r := value (StandardRide id pickup dropoff d) in
     value (calculateFare r) = r) /\
  (forall id pickup dropoff d,
     let r := value (PremiumRide id pickup dropoff d) in
     value (calculateFare r) = r) /\
  (forall r,
     value (calculateFare (value (calculateFare r))) =
     value (calculateFare r)) /\
  (forall v, Forall constructed v -> value (polymorphism_loop v) = v) /\
  Forall (fun r => value (calculateFare r) = r)
         (stored (trace demonstrateSystemFunctionality)).
Proof.
  split; [reflexivity|]. split; [reflexivity|].
  split.
  { intros r. rewrite !calculateFare_value.
    destruct r as [c id p q d f]. destruct c; reflexivity. }
  split.
  { intros v Hv. rewrite polymorphism_loop_value.
    induction Hv as [|r v Hr _ IH]; simpl; [reflexivity|].
    now rewrite calculateFare_constructed, IH. }
  vm_compute. repeat constructor.
Qed.

(* ================================================================= *)
(** ** What rideDetails and requestRide do, in order *)

Lemma rideDetails_trace (r : Ride) :
  trace (rideDetails r) =
  [ Enter FrideDetails (rideID r);
    Out "Ride ID: "; Out (rideID r); Out endl;
    Out "  Pickup: "; Out (pickupLocation r); Out endl;
    Out "  Dropoff: "; Out (dropoffLocation r); Out endl;
    Out "  Distance: "; Out (format_fixed 1 (distance r)); Out " miles";
    Out endl;
    Out "  Fare: $"; Out (format_fixed 2 (fare r)); Out endl ].
Proof. reflexivity. Qed.

Lemma rideDetails_stores_nothing (r : Ride) :
  forallb (fun e => negb (is_push e)) (trace (rideDetails r)) = true.
Proof. reflexivity. Qed.

(** A trace whose only [push_back] is its last event splits around a
    [push_back] in one way only. *)
Lemma single_push_split (l before after : list Event) (r x : Ride) :
  forallb (fun e => negb (is_push e)) l = true ->
  (l ++ [PushBack r])%list = (before ++ PushBack x :: after)%list ->
  x = r /\ before = l /\ after = [].
Proof.
  revert before.
  induction l as [|e l IH]; intros before Hl Heq.
  - destruct before as [|b before]; simpl in Heq.
    + injection Heq as <- <-. auto.
    + injection Heq as _ Heq. destruct before; discriminate Heq.
  - simpl in Hl. apply andb_true_iff in Hl as [He Hl].
    destruct before as [|b before]; simpl in Heq.
    + injection Heq as -> _. discriminate He.
    + injection Heq as <- Heq.
      destruct (IH before Hl Heq) as (-> & -> & ->). auto.
Qed.

(** C4. For every Rider and every ride [r], [requestRide(r)] acts in this
    order: first the notification naming the rider, then the details of
    [r] (the entry into [rideDetails] and its five lines: id, pickup,
    dropoff, distance, fare), and only then, as its last action, the
    [push_back] of [r] onto [requestedRides]. At any [push_back] in its
    trace the notification and all five lines of [r] are already on
    standard output, [rideDetails] has been entered on [r], and nothing
    follows. The rider afterwards holds the old rides followed by [r],
    with id and name unchanged. *)
Theorem requestRide_prints_then_stores (rd : Rider.t) (r : Ride) :
  let notification :=
    [Out newline; Out (Rider.name rd); Out " requested a ride."; Out endl] in
  let details :=
    [ Enter FrideDetails (rideID r);
      Out "Ride ID: "; Out (rideID r); Out endl;
      Out "  Pickup: "; Out (pickupLocation r); Out endl;
      Out "  Dropoff: "; Out (dropoffLocation r); Out endl;
      Out "  Distance: "; Out (format_fixed 1 (distance r)); Out " miles";
      Out endl;
      Out "  Fare: $"; Out (format_fixed 2 (fare r)); Out endl ] in
  let printed :=
    newline ++ Rider.name rd ++ " requested a ride." ++ endl ++
    "Ride ID: " ++ rideID r ++ endl ++
    "  Pickup: " ++ pickupLocation r ++ endl ++
    "  Dropoff: " ++ dropoffLocation r ++ endl ++
    "  Distance: " ++ format_fixed 1 (distance r) ++ " miles" ++ endl ++
    "  Fare: $" ++ format_fixed 2 (fare r) ++ endl in
  let rd' := value (Rider.requestRide rd r) in
  trace (Rider.requestRide rd r) =
    (notification ++ details ++ [PushBack r])%list /\
  trace (rideDetails r) = details /\
  (forall before after x,
     trace (Rider.requestRide rd r) = (before ++ PushBack x :: after)%list ->
     x = r /\
     before = (notification ++ details)%list /\
     stdout before = printed /\
     entered FrideDetails before = [rideID r] /\
     stored before = [] /\
     after = []) /\
  stdout (trace (Rider.requestRide rd r)) = printed /\
  entered FrideDetails (trace (Rider.requestRide rd r)) = [rideID r] /\
  stored (trace (Rider.requestRide rd r)) = [r] /\
  Rider.requestedRides rd' = (Rider.requestedRides rd ++ [r])%list /\
  Rider.riderID rd' = Rider.riderID rd /\
  Rider.name rd' = Rider.name rd.
Proof.
  cbv zeta.
  assert (Ht : trace (Rider.requestRide rd r) =
               (([Out newline; Out (Rider.name rd); Out " requested a ride.";
                  Out endl] ++ trace (rideDetails r)) ++ [PushBack r])%list)
    by reflexivity.
  assert (Hout : forall t,
            t = ([Out newline; Out (Rider.name rd);
                  Out " requested a ride."; Out endl] ++
                 trace (rideDetails r))%list ->
            stdout t =
              newline ++ Rider.name rd ++ " requested a ride." ++ endl ++
              "Ride ID: " ++ rideID r ++ endl ++
              "  Pickup: " ++ pickupLocation r ++ endl ++
              "  Dropoff: " ++ dropoffLocation r ++ endl ++
              "  Distance: " ++ format_fixed 1 (distance r) ++ " miles" ++
              endl ++
              "  Fare: $" ++ format_fixed 2 (fare r) ++ endl).
  { intros t ->. rewrite rideDetails_trace. cbn [app stdout].
    now rewrite string_app_nil_r. }
  split; [rewrite Ht, <- app_assoc, rideDetails_trace; reflexivity|].
  split; [apply rideDetails_trace|].
  split.
  { intros before after x Heq. rewrite Ht in Heq.
    apply single_push_split in Heq; [|reflexivity].
    destruct Heq as (-> & -> & ->).
    split; [reflexivity|].
    split; [rewrite rideDetails_trace; reflexivity|].
    split; [apply Hout; reflexivity|].
    repeat split. }
  split.
  { rewrite Ht, stdout_app. cbn [stdout].
    rewrite string_app_nil_r. apply Hout. reflexivity. }
  repeat split.
Qed.

(* ================================================================= *)
(** ** How often calculateFare runs *)

Lemma rideDetails_computes_no_fare (r : Ride) :
  entered FcalculateFare (trace (rideDetails r)) = [].
Proof. reflexivity. Qed.

Lemma polymorphism_loop_calls (v : list Ride) :
  entered FcalculateFare (trace (polymorphism_loop v)) = map rideID v.
Proof.
  unfold polymorphism_loop.
  induction v as [|r v IH]; [reflexivity|].
  cbn [for_each_mut map].
  rewrite !trace_bind, !entered_app, IH.
  rewrite calculateFare_trace, rideDetails_computes_no_fare.
  cbn [trace put emit ret snd entered app].
  now rewrite app_nil_r.
Qed.

(** The entries into [calculateFare] during the demonstration, in order:
    the ten constructors, then the four iterations of the final loop. *)
Lemma demonstration_fare_calls :
  entered FcalculateFare (trace demonstrateSystemFunctionality) =
  [ "S001"; "P002"; "S003"; "S001-C"; "P002-C"; "S003-C";
    "SysR01"; "SysR02"; "SysR03"; "SysR04";
    "SysR01"; "SysR02"; "SysR03"; "SysR04" ].
Proof. vm_compute. reflexivity. Qed.

(** C3, refuted as stated: in the demonstration [calculateFare] runs twice
    on ride SysR01, once in its constructor and once in the final loop. *)
Lemma fare_recomputed_in_demonstration :
  ~ fare_computed_once (trace demonstrateSystemFunctionality).
Proof.
  intros H. specialize (H "SysR01").
  unfold fare_calls in H. rewrite demonstration_fare_calls in H.
  assert (Hin : In "SysR01"
                   [ "S001"; "P002"; "S003"; "S001-C"; "P002-C"; "S003-C";
                     "SysR01"; "SysR02"; "SysR03"; "SysR04";
                     "SysR01"; "SysR02"; "SysR03"; "SysR04" ])
    by (simpl; tauto).
  apply H in Hin. discriminate Hin.
Qed.

(** C3, amended. Each constructor runs [calculateFare] exactly once, as the
    whole of its body after the base constructor. In the demonstration the
    six rides handed to the Rider and the Driver have it run exactly once;
    the four rides of [systemRides] have it run a second time by the final
    loop, which enters [calculateFare] once per element, in order. *)
Theorem calculateFare_invocations :
  (forall id pickup dropoff d,
     trace (StandardRide id pickup dropoff d) = [Enter FcalculateFare id]) /\
  (forall id pickup dropoff d,
     trace (PremiumRide id pickup dropoff d) = [Enter FcalculateFare id]) /\
  Forall (fun id =>
            fare_calls id (trace demonstrateSystemFunctionality) = 1%nat)
         ["S001"; "P002"; "S003"; "S001-C"; "P002-C"; "S003-C"] /\
  Forall (fun id =>
            fare_calls id (trace demonstrateSystemFunctionality) = 2%nat)
         ["SysR01"; "SysR02"; "SysR03"; "SysR04"] /\
  (forall v,
     entered FcalculateFare (trace (polymorphism_loop v)) = map rideID v).
Proof.
  split; [reflexivity|]. split; [reflexivity|].
  unfold fare_calls. rewrite demonstration_fare_calls.
  split; [repeat (constructor; [reflexivity|]); constructor|].
  split; [repeat (constructor; [reflexivity|]); constructor|].
  exact polymorphism_loop_calls.
Qed.

(* ================================================================= *)
(** ** Histories: append order and display *)

Lemma display_loop_stdout (v : list Ride) :
  stdout (trace (for_each display_body v)) = join (map details_block v).
Proof.
  induction v as [|r v IH]; [reflexivity|].
  cbn [for_each map join fold_right].
  rewrite trace_bind, stdout_app, IH. f_equal.
  unfold display_body, details_block.
  rewrite !trace_bind, !stdout_app. reflexivity.
Qed.

Lemma display_loop_details (v : list Ride) :
  entered FrideDetails (trace (for_each display_body v)) = map rideID v.
Proof.
  induction v as [|r v IH]; [reflexivity|].
  cbn [for_each map].
  rewrite trace_bind, entered_app, IH. reflexivity.
Qed.

Lemma getDriverInfo_stdout (d : Driver.t) :
  stdout (trace (Driver.getDriverInfo d)) =
  driver_header d ++
  match Driver.assignedRides d with
  | [] => "  No rides completed yet." ++ endl
  | _ :: _ => join (map details_block (Driver.assignedRides d))
  end.
Proof.
  unfold Driver.getDriverInfo, driver_header.
  rewrite !trace_bind, !stdout_app.
  cbn [put put_fixed emit trace snd stdout].
  rewrite !string_app_nil_r, !string_app_assoc.
  repeat f_equal.
  destruct (Driver.assignedRides d) as [|r v] eqn:E.
  - reflexivity.
  - rewrite <- E. apply display_loop_stdout.
Qed.

Lemma getDriverInfo_details (d : Driver.t) :
  entered FrideDetails (trace (Driver.getDriverInfo d)) =
  map rideID (Driver.assignedRides d).
Proof.
  unfold Driver.getDriverInfo.
  rewrite !trace_bind, !entered_app.
  cbn [put put_fixed emit trace snd entered app].
  destruct (Driver.assignedRides d) as [|r v] eqn:E.
  - reflexivity.
  - rewrite <- E. apply display_loop_details.
Qed.

Lemma viewRides_stdout (rd : Rider.t) :
  stdout (trace (Rider.viewRides rd)) =
  rider_header rd ++
  match Rider.requestedRides rd with
  | [] => "  No rides requested yet." ++ endl
  | _ :: _ => join (map details_block (Rider.requestedRides rd))
  end.
Proof.
  unfold Rider.viewRides, rider_header.
  rewrite !trace_bind, !stdout_app.
  cbn [put put_fixed emit trace snd stdout].
  rewrite !string_app_nil_r, !string_app_assoc.
  repeat f_equal.
  destruct (Rider.requestedRides rd) as [|r v] eqn:E.
  - reflexivity.
  - rewrite <- E. apply display_loop_stdout.
Qed.

Lemma viewRides_details (rd : Rider.t) :
  entered FrideDetails (trace (Rider.viewRides rd)) =
  map rideID (Rider.requestedRides rd).
Proof.
  unfold Rider.viewRides.
  rewrite !trace_bind, !entered_app.
  cbn [put put_fixed emit trace snd entered app].
  destruct (Rider.requestedRides rd) as [|r v] eqn:E.
  - reflexivity.
  - rewrite <- E. apply display_loop_details.
Qed.

Lemma addRide_value (d : Driver.t) (r : Ride) :
  value (Driver.addRide d r) =
  Driver.mk (Driver.driverID d) (Driver.name d) (Driver.rating d)
            (Driver.assignedRides d ++ [r]).
Proof. reflexivity. Qed.

Lemma addRides_rides (rides : list Ride) (d : Driver.t) :
  Driver.assignedRides (value (addRides d rides)) =
  (Driver.assignedRides d ++ rides)%list.
Proof.
  revert d. induction rides as [|r rides IH]; intros d.
  - simpl. now rewrite app_nil_r.
  - cbn [addRides]. rewrite value_bind, IH, addRide_value. simpl.
    now rewrite <- app_assoc.
Qed.

Lemma addRides_stored (rides : list Ride) (d : Driver.t) :
  stored (trace (addRides d rides)) = rides.
Proof.
  revert d. induction rides as [|r rides IH]; intros d; [reflexivity|].
  cbn [addRides]. rewrite trace_bind, stored_app, IH. reflexivity.
Qed.

Lemma requestRide_value (rd : Rider.t) (r : Ride) :
  value (Rider.requestRide rd r) =
  Rider.mk (Rider.riderID rd) (Rider.name rd) (Rider.requestedRides rd ++ [r]).
Proof. reflexivity. Qed.

Lemma requestRides_rides (rides : list Ride) (rd : Rider.t) :
  Rider.requestedRides (value (requestRides rd rides)) =
  (Rider.requestedRides rd ++ rides)%list.
Proof.
  revert rd. induction rides as [|r rides IH]; intros rd.
  - simpl. now rewrite app_nil_r.
  - cbn [requestRides]. rewrite value_bind, IH, requestRide_value. simpl.
    now rewrite <- app_assoc.
Qed.

Lemma requestRides_stored (rides : list Ride) (rd : Rider.t) :
  stored (trace (requestRides rd rides)) = rides.
Proof.
  revert rd. induction rides as [|r rides IH]; intros rd; [reflexivity|].
  cbn [requestRides]. rewrite trace_bind, stored_app, IH. reflexivity.
Qed.

(** C5. For every sequence of N rides appended by [addRide] to a Driver (or
    by [requestRide] to a Rider), the history is the old history followed
    by exactly those rides in the order appended, duplicates included; from
    a fresh object it is that sequence itself, of length N; and
    [getDriverInfo] / [viewRides] visit the rides in that order, printing
    one detail block per ride. *)
Theorem history_is_append_order (rides : list Ride) :
  (forall d,
     Driver.assignedRides (value (addRides d rides)) =
       (Driver.assignedRides d ++ rides)%list /\
     stored (trace (addRides d rides)) = rides) /\
  (forall id n rt,
     let d := value (addRides (Driver.ctor id n rt) rides) in
     Driver.assignedRides d = rides /\
     List.length (Driver.assignedRides d) = List.length rides /\
     entered FrideDetails (trace (Driver.getDriverInfo d)) =
       map rideID rides /\
     stdout (trace (Driver.getDriverInfo d)) =
       driver_header d ++
       match rides with
       | [] => "  No rides completed yet." ++ endl
       | _ :: _ => join (map details_block rides)
       end) /\
  (forall rd,
     Rider.requestedRides (value (requestRides rd rides)) =
       (Rider.requestedRides rd ++ rides)%list /\
     stored (trace (requestRides rd rides)) = rides) /\
  (forall id n,
     let rd := value (requestRides (Rider.ctor id n) rides) in
     Rider.requestedRides rd = rides /\
     List.length (Rider.requestedRides rd) = List.length rides /\
     entered FrideDetails (trace (Rider.viewRides rd)) = map rideID rides /\
     stdout (trace (Rider.viewRides rd)) =
       rider_header rd ++
       match rides with
       | [] => "  No rides requested yet." ++ endl
       | _ :: _ => join (map details_block rides)
       end).
Proof.
  split; [intros d; split; [apply addRides_rides | apply addRides_stored]|].
  split.
  { intros id n rt. cbv zeta.
    assert (E : Driver.assignedRides
                  (value (addRides (Driver.ctor id n rt) rides)) = rides)
      by (rewrite addRides_rides; reflexivity).
    rewrite getDriverInfo_details, getDriverInfo_stdout, !E.
    repeat split. }
  split; [intros rd; split;
          [apply requestRides_rides | apply requestRides_stored]|].
  intros id n. cbv zeta.
  assert (E : Rider.requestedRides
                (value (requestRides (Rider.ctor id n) rides)) = rides)
    by (rewrite requestRides_rides; reflexivity).
  rewrite viewRides_details, viewRides_stdout, !E.
  repeat split.
Qed.

(** C6. A Driver whose [assignedRides] is empty and a Rider whose
    [requestedRides] is empty: [getDriverInfo] prints its header, with the
    count 0, followed by the line [  No rides completed yet.], and
    [viewRides] prints its header followed by [  No rides requested yet.];
    neither enters [rideDetails], so no detail block is printed. *)
Theorem empty_history_sentinel (d : Driver.t) (rd : Rider.t) :
  Driver.assignedRides d = [] ->
  Rider.requestedRides rd = [] ->
  stdout (trace (Driver.getDriverInfo d)) =
    newline ++ "--- Driver Details ---" ++ endl ++
    "Driver ID: " ++ Driver.driverID d ++ endl ++
    "Name: " ++ Driver.name d ++ endl ++
    "Rating: " ++ format_fixed 1 (Driver.rating d) ++ "/5.0" ++ endl ++
    "Completed Rides (0):" ++ endl ++
    "  No rides completed yet." ++ endl /\
  entered FrideDetails (trace (Driver.getDriverInfo d)) = [] /\
  stdout (trace (Rider.viewRides rd)) =
    newline ++ "--- " ++ Rider.name rd ++ "'s Ride History ---" ++ endl ++
    "  No rides requested yet." ++ endl /\
  entered FrideDetails (trace (Rider.viewRides rd)) = [].
Proof.
  intros Hd Hrd.
  rewrite getDriverInfo_stdout, getDriverInfo_details.
  rewrite viewRides_stdout, viewRides_details.
  unfold driver_header, rider_header. rewrite Hd, Hrd.
  cbn [List.length size_text map].
  rewrite !string_app_assoc. repeat split.
Qed.

(** The demonstration's driver and rider before any ride is added. *)
Lemma empty_history_sentinel_witness :
  stdout (trace (Driver.getDriverInfo
                   (Driver.ctor "D001" "Alice Smith" 4.8%float))) =
    newline ++ "--- Driver Details ---" ++ endl ++
    "Driver ID: D001" ++ endl ++
    "Name: Alice Smith" ++ endl ++
    "Rating: 4.8/5.0" ++ endl ++
    "Completed Rides (0):" ++ endl ++
    "  No rides completed yet." ++ endl /\
  stdout (trace (Rider.viewRides (Rider.ctor "R001" "Sandesh Shrestha"))) =
    newline ++ "--- Sandesh Shrestha's Ride History ---" ++ endl ++
    "  No rides requested yet." ++ endl.
Proof.
  destruct (empty_history_sentinel
              (Driver.ctor "D001" "Alice Smith" 4.8%float)
              (Rider.ctor "R001" "Sandesh Shrestha")
              eq_refl eq_refl) as (H1 & _ & H2 & _).
  split.
  - rewrite H1. reflexivity.
  - rewrite H2. reflexivity.
Defined.

(** C7. [StandardRide("S001","Downtown","Suburb A",10.5)] has fare 21,
    printed [21.00]; [PremiumRide("P002","Airport","City Center",25.0)] has
    fare 92.5, printed [92.50]; a Driver (of any id, name and rating) given
    exactly these two rides in that order prints, after its identity lines,
    [Completed Rides (2):] and then the two detail blocks in that order. *)
Theorem end_to_end_scenario :
  let ride1 := value (StandardRide "S001" "Downtown" "Suburb A" 10.5%float) in
  let ride2 := value (PremiumRide "P002" "Airport" "City Center" 25.0%float) in
  getFare ride1 = 21.0%float /\
  format_fixed 2 (getFare ride1) = "21.00" /\
  getFare ride2 = 92.5%float /\
  format_fixed 2 (getFare ride2) = "92.50" /\
  forall id n rt,
    let d := value (d1 <- Driver.addRide (Driver.ctor id n rt) ride1 ;;
                    Driver.addRide d1 ride2) in
    Driver.assignedRides d = [ride1; ride2] /\
    stdout (trace (Driver.getDriverInfo d)) =
      lines [ newline ++ "--- Driver Details ---";
              "Driver ID: " ++ id;
              "Name: " ++ n;
              "Rating: " ++ format_fixed 1 rt ++ "/5.0";
              "Completed Rides (2):";
              "Ride ID: S001";
              "  Pickup: Downtown";
              "  Dropoff: Suburb A";
              "  Distance: 10.5 miles";
              "  Fare: $21.00";
              "--------------------";
              "Ride ID: P002";
              "  Pickup: Airport";
              "  Dropoff: City Center";
              "  Distance: 25.0 miles";
              "  Fare: $92.50";
              "--------------------" ].
Proof.
  cbv zeta.
  split; [reflexivity|]. split; [vm_compute; reflexivity|].
  split; [reflexivity|]. split; [vm_compute; reflexivity|].
  intros id n rt. split; [reflexivity|].
  rewrite getDriverInfo_stdout.
  unfold driver_header, lines, join.
  cbn [map fold_right Driver.assignedRides Driver.driverID Driver.name
       Driver.rating].
  rewrite !string_app_assoc.
  repeat (apply f_equal).
  vm_compute. reflexivity.
Qed.

(* ================================================================= *)
(** ** Precision of the numbers printed by rideDetails *)

Lemma digit_is_digit (z : Z) : 0 <= z < 10 -> is_digit (digit z) = true.
Proof.
  intros H.
  assert (C : z = 0 \/ z = 1 \/ z = 2 \/ z = 3 \/ z = 4 \/
              z = 5 \/ z = 6 \/ z = 7 \/ z = 8 \/ z = 9) by lia.
  repeat (destruct C as [-> | C]; [reflexivity|]). subst z. reflexivity.
Qed.

Lemma all_digits_app (s1 s2 : string) :
  all_digits (s1 ++ s2) = all_digits s1 && all_digits s2.
Proof.
  induction s1 as [|c s1 IH]; simpl; [reflexivity|].
  now rewrite IH, andb_assoc.
Qed.

Lemma string_length_app (s1 s2 : string) :
  String.length (s1 ++ s2) = (String.length s1 + String.length s2)%nat.
Proof.
  induction s1 as [|c s1 IH]; simpl; [reflexivity | now rewrite IH].
Qed.

Lemma frac_digits_all_digits (p : nat) (n : Z) :
  all_digits (frac_digits p n) = true.
Proof.
  revert n. induction p as [|p IH]; intros n; [reflexivity|].
  cbn [frac_digits]. rewrite all_digits_app, IH.
  cbn [all_digits andb].
  rewrite digit_is_digit; [reflexivity|].
  apply Z.mod_pos_bound. lia.
Qed.

Lemma frac_digits_length (p : nat) (n : Z) :
  String.length (frac_digits p n) = p.
Proof.
  revert n. induction p as [|p IH]; intros n; [reflexivity|].
  cbn [frac_digits]. rewrite string_length_app, IH.
  cbn [String.length]. lia.
Qed.

Lemma string_of_uint_all_digits (u : Decimal.uint) :
  all_digits (NilEmpty.string_of_uint u) = true.
Proof.
  induction u; simpl; auto.
Qed.

Lemma int_digits_all_digits (n : Z) : all_digits (int_digits n) = true.
Proof. apply string_of_uint_all_digits. Qed.

Lemma int_digits_nonempty (n : Z) :
  exists c s, int_digits n = String c s.
Proof.
  unfold int_digits.
  destruct (Z.to_N n) as [|q]; [now exists "0"%char, ""|].
  cbn [N.to_uint].
  pose proof (DecimalPos.Unsigned.to_uint_nonnil q) as Hq.
  destruct (Pos.to_uint q); [contradiction | | | | | | | | | |];
    simpl; eauto.
Qed.

Lemma digit_not_point (c : ascii) :
  is_digit c = true -> Ascii.eqb c "."%char = false.
Proof.
  intros H. destruct (Ascii.eqb_spec c "."%char) as [-> | _];
    [discriminate H | reflexivity].
Qed.

Lemma digit_not_minus (c : ascii) :
  is_digit c = true -> Ascii.eqb c "-"%char = false.
Proof.
  intros H. destruct (Ascii.eqb_spec c "-"%char) as [-> | _];
    [discriminate H | reflexivity].
Qed.

Lemma split_point_digits (ip fp : string) :
  all_digits ip = true ->
  split_point (ip ++ String "."%char fp) = Some (ip, fp).
Proof.
  induction ip as [|c ip IH]; intros H; [reflexivity|].
  simpl in H. apply andb_true_iff in H as [Hc Hip].
  cbn [String.append split_point].
  now rewrite (digit_not_point c Hc), (IH Hip).
Qed.

Lemma fixed_digits_has_decimals (sgn : bool) (p : nat) (n : Z) :
  has_decimals (S p) (sign_text sgn ++ fixed_digits (S p) n) = true.
Proof.
  unfold has_decimals, fixed_digits.
  set (ip := int_digits (n / pow10 (S p))).
  set (fp := frac_digits (S p) (n mod pow10 (S p))).
  assert (Hip : all_digits ip = true) by apply int_digits_all_digits.
  destruct (int_digits_nonempty (n / pow10 (S p))) as (c & s & Hcs).
  fold ip in Hcs.
  assert (Hu : unsigned (sign_text sgn ++ ip ++ "." ++ fp) = ip ++ "." ++ fp).
  { destruct sgn; [reflexivity|].
    cbn [sign_text String.append]. rewrite Hcs in *.
    simpl in Hip. apply andb_true_iff in Hip as [Hc _].
    cbn [String.append unsigned]. now rewrite (digit_not_minus c Hc). }
  rewrite Hu.
  change (ip ++ "." ++ fp) with (ip ++ String "."%char fp).
  rewrite (split_point_digits ip fp Hip), Hip.
  unfold fp. rewrite frac_digits_all_digits, frac_digits_length.
  rewrite Hcs, Nat.eqb_refl. reflexivity.
Qed.

(** A finite double is a signed zero or a signed mantissa and exponent. *)
Lemma finite_Prim2SF (x : float) :
  is_finite x = true ->
  (exists s, Prim2SF x = S754_zero s) \/
  (exists s m e, Prim2SF x = S754_finite s m e).
Proof.
  unfold is_finite, Prim2SF. intros H.
  apply negb_true_iff, orb_false_iff in H as [Hn Hi].
  rewrite Hn, Hi.
  destruct (is_zero x); [left; eauto|].
  destruct (Z.frexp x) as [fr ex].
  destruct (shr_fexp _ _ _ _ _) as [sh e'].
  destruct (shr_m sh); [left | right | left]; eauto.
Qed.

Lemma format_fixed_has_decimals (p : nat) (x : float) :
  is_finite x = true -> has_decimals (S p) (format_fixed (S p) x) = true.
Proof.
  intros H. unfold format_fixed.
  destruct (finite_Prim2SF x H) as [[s ->] | (s & m & e & ->)];
    apply fixed_digits_has_decimals.
Qed.

(** C8, refuted as stated: a StandardRide of 1e308 miles has a finite
    distance, but its fare 1e308 x 2.0 overflows to infinity, which
    [rideDetails] prints as [inf], with no fractional digit at all. *)
Lemma overflowing_fare_not_rendered_precisely :
  let r := value (StandardRide "S900" "Earth" "Moon" 1e308%float) in
  is_finite (distance r) = true /\
  fare r = infinity /\
  fare_text r = "inf" /\
  In (Out "inf") (trace (rideDetails r)) /\
  ~ rendered_precisely r.
Proof.
  cbv zeta.
  split; [reflexivity|]. split; [reflexivity|].
  split; [vm_compute; reflexivity|].
  split.
  - rewrite rideDetails_trace. do 15 right. left.
    vm_compute. reflexivity.
  - intros [_ H]. vm_compute in H. discriminate H.
Qed.

(** C8, amended. For every Ride whose distance and fare are finite doubles
    (neither infinite nor NaN), [rideDetails] prints the distance with
    exactly one fractional digit and the fare with exactly two, whatever
    the trailing zeros. *)
Theorem rideDetails_precision (r : Ride) :
  is_finite (distance r) = true ->
  is_finite (fare r) = true ->
  trace (rideDetails r) =
    [ Enter FrideDetails (rideID r);
      Out "Ride ID: "; Out (rideID r); Out endl;
      Out "  Pickup: "; Out (pickupLocation r); Out endl;
      Out "  Dropoff: "; Out (dropoffLocation r); Out endl;
      Out "  Distance: "; Out (distance_text r); Out " miles"; Out endl;
      Out "  Fare: $"; Out (fare_text r); Out endl ] /\
  rendered_precisely r.
Proof.
  intros Hd Hf. split; [apply rideDetails_trace|].
  split; apply format_fixed_has_decimals; assumption.
Qed.

(** The demonstration's third ride: 3.2 miles, fare 6.40. *)
Lemma rideDetails_precision_witness :
  let r := value (StandardRide "S003" "Park" "Museum" 3.2%float) in
  distance_text r = "3.2" /\ fare_text r = "6.40" /\ rendered_precisely r.
Proof.
  cbv zeta.
  split; [vm_compute; reflexivity|]. split; [vm_compute; reflexivity|].
  apply (rideDetails_precision
           (value (StandardRide "S003" "Park" "Museum" 3.2%float)));
    reflexivity.
Defined.

(* ================================================================= *)
(** ** Further properties of the containers *)

Lemma addRides_trace (rides : list Ride) (d : Driver.t) :
  trace (addRides d rides) = map PushBack rides.
Proof.
  revert d. induction rides as [|r rides IH]; intros d; [reflexivity|].
  cbn [addRides map]. rewrite trace_bind, IH. reflexivity.
Qed.

Lemma addRides_identity (rides : list Ride) (d : Driver.t) :
  Driver.driverID (value (addRides d rides)) = Driver.driverID d /\
  Driver.name (value (addRides d rides)) = Driver.name d /\
  Driver.rating (value (addRides d rides)) = Driver.rating d.
Proof.
  revert d. induction rides as [|r rides IH]; intros d; [repeat split|].
  cbn [addRides]. rewrite value_bind, addRide_value.
  destruct (IH (Driver.mk (Driver.driverID d) (Driver.name d)
                          (Driver.rating d) (Driver.assignedRides d ++ [r])))
    as (H1 & H2 & H3).
  rewrite H1, H2, H3. repeat split.
Qed.

Lemma pushes_print_nothing (rides : list Ride) :
  stdout (map PushBack rides) = "" /\
  entered FrideDetails (map PushBack rides) = [] /\
  entered FcalculateFare (map PushBack rides) = [].
Proof.
  induction rides as [|r rides (H1 & H2 & H3)]; simpl; auto.
Qed.

(** X1. [addRide], any number of times: the driver's id, name and rating
    are unchanged, nothing is printed, neither [rideDetails] nor
    [calculateFare] is entered; the only events are the [push_back]s of the
    rides, in order. *)
Theorem addRides_frame (rides : list Ride) (d : Driver.t) :
  let d' := value (addRides d rides) in
  Driver.driverID d' = Driver.driverID d /\
  Driver.name d' = Driver.name d /\
  Driver.rating d' = Driver.rating d /\
  trace (addRides d rides) = map PushBack rides /\
  stdout (trace (addRides d rides)) = "" /\
  entered FrideDetails (trace (addRides d rides)) = [] /\
  entered FcalculateFare (trace (addRides d rides)) = [].
Proof.
  cbv zeta. rewrite addRides_trace.
  destruct (addRides_identity rides d) as (H1 & H2 & H3).
  destruct (pushes_print_nothing rides) as (H4 & H5 & H6).
  repeat split; assumption.
Qed.

Lemma requestRide_stdout (rd : Rider.t) (r : Ride) :
  stdout (trace (Rider.requestRide rd r)) = request_text (Rider.name rd) r.
Proof.
  unfold Rider.requestRide, request_text.
  rewrite !trace_bind, !stdout_app.
  cbn [put emit push_back trace snd stdout bind ret app value fst].
  rewrite ?string_app_nil_r, ?string_app_assoc. reflexivity.
Qed.

Lemma requestRide_entries (rd : Rider.t) (r : Ride) :
  entered FrideDetails (trace (Rider.requestRide rd r)) = [rideID r] /\
  entered FcalculateFare (trace (Rider.requestRide rd r)) = [].
Proof. split; reflexivity. Qed.

Lemma requestRides_identity (rides : list Ride) (rd : Rider.t) :
  Rider.riderID (value (requestRides rd rides)) = Rider.riderID rd /\
  Rider.name (value (requestRides rd rides)) = Rider.name rd.
Proof.
  revert rd. induction rides as [|r rides IH]; intros rd; [split; reflexivity|].
  cbn [requestRides]. rewrite value_bind, requestRide_value.
  destruct (IH (Rider.mk (Rider.riderID rd) (Rider.name rd)
                         (Rider.requestedRides rd ++ [r]))) as (H1 & H2).
  rewrite H1, H2. split; reflexivity.
Qed.

Lemma requestRides_stdout (rides : list Ride) (rd : Rider.t) :
  stdout (trace (requestRides rd rides)) =
  join (map (request_text (Rider.name rd)) rides).
Proof.
  revert rd. induction rides as [|r rides IH]; intros rd; [reflexivity|].
  cbn [requestRides map join fold_right].
  rewrite trace_bind, stdout_app, requestRide_stdout, IH.
  rewrite requestRide_value. reflexivity.
Qed.

Lemma requestRides_entries (rides : list Ride) (rd : Rider.t) :
  entered FrideDetails (trace (requestRides rd rides)) = map rideID rides /\
  entered FcalculateFare (trace (requestRides rd rides)) = [].
Proof.
  revert rd. induction rides as [|r rides IH]; intros rd; [split; reflexivity|].
  cbn [requestRides map].
  rewrite trace_bind, !entered_app.
  destruct (requestRide_entries rd r) as (-> & ->).
  destruct (IH (value (Rider.requestRide rd r))) as (-> & ->).
  split; reflexivity.
Qed.

(** X2. [requestRide], any number of times: for each ride, in order, one
    notification naming the rider followed by that ride's details is
    printed; [rideDetails] is entered once per ride, [calculateFare]
    never; the rider's id and name are unchanged. *)
Theorem requestRides_output (rides : list Ride) (rd : Rider.t) :
  let rd' := value (requestRides rd rides) in
  Rider.riderID rd' = Rider.riderID rd /\
  Rider.name rd' = Rider.name rd /\
  stdout (trace (requestRides rd rides)) =
    join (map (request_text (Rider.name rd)) rides) /\
  entered FrideDetails (trace (requestRides rd rides)) = map rideID rides /\
  entered FcalculateFare (trace (requestRides rd rides)) = [].
Proof.
  cbv zeta.
  destruct (requestRides_identity rides rd) as (H1 & H2).
  destruct (requestRides_entries rides rd) as (H3 & H4).
  pose proof (requestRides_stdout rides rd) as H5.
  repeat split; assumption.
Qed.

(* ================================================================= *)
(** ** The display functions only read *)

Lemma display_loop_reads_only (v : list Ride) :
  stored (trace (for_each display_body v)) = [] /\
  entered FcalculateFare (trace (for_each display_body v)) = [].
Proof.
  induction v as [|r v (IH1 & IH2)]; [split; reflexivity|].
  cbn [for_each]. rewrite trace_bind, stored_app, entered_app, IH1, IH2.
  split; reflexivity.
Qed.

Lemma getDriverInfo_reads_only (d : Driver.t) :
  stored (trace (Driver.getDriverInfo d)) = [] /\
  entered FcalculateFare (trace (Driver.getDriverInfo d)) = [].
Proof.
  unfold Driver.getDriverInfo.
  rewrite !trace_bind, !stored_app, !entered_app.
  cbn [put put_fixed emit trace snd stored entered app].
  destruct (Driver.assignedRides d) as [|r v] eqn:E.
  - split; reflexivity.
  - rewrite <- E. apply display_loop_reads_only.
Qed.

Lemma viewRides_reads_only (rd : Rider.t) :
  stored (trace (Rider.viewRides rd)) = [] /\
  entered FcalculateFare (trace (Rider.viewRides rd)) = [].
Proof.
  unfold Rider.viewRides.
  rewrite !trace_bind, !stored_app, !entered_app.
  cbn [put put_fixed emit trace snd stored entered app].
  destruct (Rider.requestedRides rd) as [|r v] eqn:E.
  - split; reflexivity.
  - rewrite <- E. apply display_loop_reads_only.
Qed.

(** X3. The display functions only read: whatever the driver, rider or
    ride, [getDriverInfo], [viewRides] and [rideDetails] perform no
    [push_back] and never enter [calculateFare]; a history of any length is
    printed without being changed or recomputed. *)
Theorem display_reads_only (d : Driver.t) (rd : Rider.t) (r : Ride) :
  stored (trace (Driver.getDriverInfo d)) = [] /\
  entered FcalculateFare (trace (Driver.getDriverInfo d)) = [] /\
  stored (trace (Rider.viewRides rd)) = [] /\
  entered FcalculateFare (trace (Rider.viewRides rd)) = [] /\
  stored (trace (rideDetails r)) = [] /\
  entered FcalculateFare (trace (rideDetails r)) = [].
Proof.
  destruct (getDriverInfo_reads_only d) as (H1 & H2).
  destruct (viewRides_reads_only rd) as (H3 & H4).
  repeat split; assumption.
Qed.

(* ================================================================= *)
(** ** The final loop of the demonstration, on any vector *)

Lemma calculateFare_consistent (r : Ride) :
  fare_consistent (value (calculateFare r)).
Proof.
  unfold fare_consistent. rewrite calculateFare_value.
  destruct r as [c id p q d f]. destruct c; reflexivity.
Qed.

Lemma constructed_consistent (r : Ride) :
  constructed r -> fare_consistent r.
Proof.
  intros (id & pickup & dropoff & d & [-> | ->]); reflexivity.
Qed.

Lemma polymorphism_loop_trace_facts (v : list Ride) :
  stdout (trace (polymorphism_loop v)) =
    join (map (fun r => details_block (value (calculateFare r))) v) /\
  entered FrideDetails (trace (polymorphism_loop v)) = map rideID v /\
  stored (trace (polymorphism_loop v)) = [].
Proof.
  unfold polymorphism_loop.
  induction v as [|r v (IH1 & IH2 & IH3)]; [repeat split|].
  cbn [for_each_mut map join fold_right].
  rewrite !trace_bind, !stdout_app, !entered_app, !stored_app.
  rewrite IH1, IH2, IH3, calculateFare_trace, !value_bind.
  cbn [put emit ret trace snd stdout entered stored app value fst].
  rewrite !string_app_nil_r. unfold details_block.
  rewrite !string_app_assoc.
  assert (Hid : rideID (value (calculateFare r)) = rideID r)
    by (rewrite calculateFare_value; reflexivity).
  rewrite rideDetails_trace, Hid. cbn [entered stored app].
  rewrite app_nil_r. repeat split.
Qed.

(** X4. The final loop on any vector of rides: each element gets the fare
    its class derives from its distance, whatever fare it held before, and
    keeps its id, class and distance; the vector keeps its length and
    order; one detail block per element is printed, in order, showing the
    fare just computed; nothing is stored. *)
Theorem polymorphism_loop_output (v : list Ride) :
  let v' := value (polymorphism_loop v) in
  v' = map (fun r => value (calculateFare r)) v /\
  List.length v' = List.length v /\
  map getRideID v' = map getRideID v /\
  map dynamic_type v' = map dynamic_type v /\
  map distance v' = map distance v /\
  map getFare v' =
    map (fun r => fare_formula (dynamic_type r) (distance r)) v /\
  Forall fare_consistent v' /\
  stdout (trace (polymorphism_loop v)) = join (map details_block v') /\
  entered FrideDetails (trace (polymorphism_loop v)) = map rideID v /\
  stored (trace (polymorphism_loop v)) = [].
Proof.
  cbv zeta. rewrite polymorphism_loop_value.
  destruct (polymorphism_loop_trace_facts v) as (H1 & H2 & H3).
  split; [reflexivity|].
  split; [apply length_map|].
  split; [rewrite map_map; apply map_ext; intros r;
          now rewrite calculateFare_value|].
  split; [rewrite map_map; apply map_ext; intros r;
          now rewrite calculateFare_value|].
  split; [rewrite map_map; apply map_ext; intros r;
          now rewrite calculateFare_value|].
  split; [rewrite map_map; apply map_ext; intros r;
          rewrite calculateFare_value; destruct r as [c id p q d f];
          destruct c; reflexivity|].
  split; [apply Forall_map, Forall_forall; intros r _;
          apply calculateFare_consistent|].
  split; [now rewrite map_map|].
  split; assumption.
Qed.

(* ================================================================= *)
(** ** Histories keep fares consistent *)

(** X5. Fares in a history stay consistent with distances: when every ride
    already held and every ride handed over has the fare its class derives
    from its distance (as every constructed ride has), so has every ride of
    the Driver's and of the Rider's history afterwards. *)
Theorem histories_keep_fares_consistent
    (rides : list Ride) (d : Driver.t) (rd : Rider.t) :
  Forall fare_consistent rides ->
  Forall fare_consistent (Driver.assignedRides d) ->
  Forall fare_consistent (Rider.requestedRides rd) ->
  Forall fare_consistent (Driver.assignedRides (value (addRides d rides))) /\
  Forall fare_consistent (Rider.requestedRides (value (requestRides rd rides))).
Proof.
  intros Hr Hd Hrd.
  rewrite addRides_rides, requestRides_rides.
  split; apply Forall_app; split; assumption.
Qed.

(** The demonstration's first two rides, handed to a fresh driver and a
    fresh rider. *)
Lemma histories_keep_fares_consistent_witness :
  let rides :=
    [ value (StandardRide "S001" "Downtown" "Suburb A" 10.5%float);
      value (PremiumRide "P002" "Airport" "City Center" 25.0%float) ] in
  Forall fare_consistent
    (Driver.assignedRides
       (value (addRides (Driver.ctor "D001" "Alice Smith" 4.8%float) rides))) /\
  Forall fare_consistent
    (Rider.requestedRides
       (value (requestRides (Rider.ctor "R001" "Sandesh Shrestha") rides))).
Proof.
  cbv zeta.
  apply (histories_keep_fares_consistent
           [ value (StandardRide "S001" "Downtown" "Suburb A" 10.5%float);
             value (PremiumRide "P002" "Airport" "City Center" 25.0%float) ]
           (Driver.ctor "D001" "Alice Smith" 4.8%float)
           (Rider.ctor "R001" "Sandesh Shrestha")).
  - repeat constructor.
  - constructor.
  - constructor.
Defined.

(* ================================================================= *)
(** ** Distances that are not finite *)




(* ================================================================= *)
(** ** The whole program *)

(** X8. The program takes no input: [main] returns 0 and its standard
    output is, line for line, the text below (three requests, the driver's
    details with three completed rides, the rider's history, the four
    rides of the polymorphism section, the closing line). *)
Theorem main_output :
  value main = 0 /\
  stdout (trace main) =
    lines [
      "--- C++ Ride Sharing System Demonstration ---";
      "";
      "Sandesh Shrestha requested a ride.";
      "Ride ID: S001";
      "  Pickup: Downtown";
      "  Dropoff: Suburb A";
      "  Distance: 10.5 miles";
      "  Fare: $21.00";
      "";
      "Sandesh Shrestha requested a ride.";
      "Ride ID: P002";
      "  Pickup: Airport";
      "  Dropoff: City Center";
      "  Distance: 25.0 miles";
      "  Fare: $92.50";
      "";
      "Sandesh Shrestha requested a ride.";
      "Ride ID: S003";
      "  Pickup: Park";
      "  Dropoff: Museum";
      "  Distance: 3.2 miles";
      "  Fare: $6.40";
      "";
      "--- Driver Details ---";
      "Driver ID: D001";
      "Name: Alice Smith";
      "Rating: 4.8/5.0";
      "Completed Rides (3):";
      "Ride ID: S001-C";
      "  Pickup: Downtown";
      "  Dropoff: Suburb A";
      "  Distance: 10.5 miles";
      "  Fare: $21.00";
      "--------------------";
      "Ride ID: P002-C";
      "  Pickup: Airport";
      "  Dropoff: City Center";
      "  Distance: 25.0 miles";
      "  Fare: $92.50";
      "--------------------";
      "Ride ID: S003-C";
      "  Pickup: Park";
      "  Dropoff: Museum";
      "  Distance: 3.2 miles";
      "  Fare: $6.40";
      "--------------------";
      "";
      "--- Sandesh Shrestha's Ride History ---";
      "Ride ID: S001";
      "  Pickup: Downtown";
      "  Dropoff: Suburb A";
      "  Distance: 10.5 miles";
      "  Fare: $21.00";
      "--------------------";
      "Ride ID: P002";
      "  Pickup: Airport";
      "  Dropoff: City Center";
      "  Distance: 25.0 miles";
      "  Fare: $92.50";
      "--------------------";
      "Ride ID: S003";
      "  Pickup: Park";
      "  Dropoff: Museum";
      "  Distance: 3.2 miles";
      "  Fare: $6.40";
      "--------------------";
      "";
      "--- Polymorphism Demonstration (List of All Rides in System) ---";
      "Ride ID: SysR01";
      "  Pickup: Library";
      "  Dropoff: Cafe";
      "  Distance: 7.0 miles";
      "  Fare: $14.00";
      "--------------------";
      "Ride ID: SysR02";
      "  Pickup: Mall";
      "  Dropoff: Home";
      "  Distance: 4.5 miles";
      "  Fare: $20.75";
      "--------------------";
      "Ride ID: SysR03";
      "  Pickup: Gym";
      "  Dropoff: Cafe";
      "  Distance: 2.0 miles";
      "  Fare: $4.00";
      "--------------------";
      "Ride ID: SysR04";
      "  Pickup: School";
      "  Dropoff: Park";
      "  Distance: 12.0 miles";
      "  Fare: $47.00";
      "--------------------";
      "";
      "--- Demonstration Complete ---" ].
Proof.
  split; [reflexivity|]. vm_compute. reflexivity.
Qed.

(** X9. Order and ownership in the demonstration: the fare of a ride is
    always computed before the ride is printed or stored; the ten rides
    constructed are each stored exactly once, in the order of their
    construction, under pairwise different ids: three in the rider's
    vector, three in the driver's, four in [systemRides]. *)
Theorem demonstration_order_and_ownership :
  let t := trace demonstrateSystemFunctionality in
  fares_ready [] t = true /\
  map rideID (stored t) =
    [ "S001"; "P002"; "S003"; "S001-C"; "P002-C"; "S003-C";
      "SysR01"; "SysR02"; "SysR03"; "SysR04" ] /\
  distinct (map rideID (stored t)) = true /\
  firstn 10 (entered FcalculateFare t) = map rideID (stored t) /\
  Forall fare_consistent (stored t).
Proof.
  cbv zeta.
  split; [vm_compute; reflexivity|].
  split; [vm_compute; reflexivity|].
  split; [vm_compute; reflexivity|].
  split; [vm_compute; reflexivity|].
  vm_compute. repeat constructor.
Qed.

(* ================================================================= *)
(** ** The header of getDriverInfo *)

Lemma size_text_nonempty (n : nat) : exists c s, size_text n = String c s.
Proof.
  unfold size_text.
  destruct (Nat.to_uint n) as [|u|u|u|u|u|u|u|u|u|u] eqn:E; simpl; eauto.
  exfalso.
  pose proof (DecimalNat.Unsigned.of_to n) as H.
  rewrite E in H. cbn in H. subst n.
  vm_compute in E. discriminate E.
Qed.

Lemma parse_count_size_text (n : nat) : parse_count (size_text n) = Some n.
Proof.
  unfold parse_count.
  destruct (size_text_nonempty n) as (c & s & E). rewrite E, <- E.
  unfold size_text.
  now rewrite NilEmpty.usu, DecimalNat.Unsigned.of_to.
Qed.

(** X10. The header of [getDriverInfo], for a driver whose rating is a
    finite double (no range is enforced on it): the id and the name as
    stored; the rating in fixed notation, which has exactly one decimal,
    followed by [/5.0]; the number of rides held in decimal, which reads
    back as that number; then the sentinel line or the detail blocks. *)
Theorem getDriverInfo_header (d : Driver.t) :
  is_finite (Driver.rating d) = true ->
  let rating_text := format_fixed 1 (Driver.rating d) in
  let count_text := size_text (List.length (Driver.assignedRides d)) in
  stdout (trace (Driver.getDriverInfo d)) =
    newline ++ "--- Driver Details ---" ++ endl ++
    "Driver ID: " ++ Driver.driverID d ++ endl ++
    "Name: " ++ Driver.name d ++ endl ++
    "Rating: " ++ rating_text ++ "/5.0" ++ endl ++
    "Completed Rides (" ++ count_text ++ "):" ++ endl ++
    match Driver.assignedRides d with
    | [] => "  No rides completed yet." ++ endl
    | _ :: _ => join (map details_block (Driver.assignedRides d))
    end /\
  has_decimals 1 rating_text = true /\
  parse_count count_text = Some (List.length (Driver.assignedRides d)).
Proof.
  intros Hr. cbv zeta.
  split.
  - rewrite getDriverInfo_stdout. unfold driver_header.
    now rewrite !string_app_assoc.
  - split; [now apply format_fixed_has_decimals
           | apply parse_count_size_text].
Qed.

(** The demonstration's driver, rated 4.8, before any ride is added. *)
Lemma getDriverInfo_header_witness :
  let d := Driver.ctor "D001" "Alice Smith" 4.8%float in
  format_fixed 1 (Driver.rating d) = "4.8" /\
  size_text (List.length (Driver.assignedRides d)) = "0" /\
  stdout (trace (Driver.getDriverInfo d)) =
    newline ++ "--- Driver Details ---" ++ endl ++
    "Driver ID: D001" ++ endl ++
    "Name: Alice Smith" ++ endl ++
    "Rating: 4.8/5.0" ++ endl ++
    "Completed Rides (0):" ++ endl ++
    "  No rides completed yet." ++ endl /\
  has_decimals 1 "4.8" = true /\
  parse_count "0" = Some 0%nat.
Proof.
  cbv zeta.
  assert (E1 : format_fixed 1 4.8%float = "4.8") by (vm_compute; reflexivity).
  split; [exact E1|]. split; [reflexivity|].
  destruct (getDriverInfo_header
              (Driver.ctor "D001" "Alice Smith" 4.8%float) eq_refl)
    as (H1 & H2 & H3).
  cbn [Driver.ctor Driver.rating Driver.assignedRides Driver.driverID
       Driver.name List.length] in H1, H2, H3.
  rewrite E1 in H1, H2.
  split; [rewrite H1; reflexivity|].
  split; [exact H2 | exact H3].
Defined.
